(** * The session registry and message routing of the MCP gateway (src/index.ts)

    A shallow embedding of the request handlers of [main] and of
    [handleShutdown].  The process-wide table [transports] is a plain
    JavaScript object used as a map; it is modelled as an association list in
    insertion order, because [Object.keys] and [Object.values] enumerate string
    keys in insertion order and that order fixes the order of the log entries
    written by the [/sse] handler and of the [close] calls made on shutdown.
    Property reads go through the prototype chain, as they do in JavaScript.

    Handlers are written in explicit state-passing style: they take the
    registry and return the new registry together with the trace of the
    effects they performed (log lines, calls on transports, replies).  Each
    handler runs to completion without interleaving; what the SDK objects and
    the network do (how a promise settles, what a transport writes) is an
    input of the handler. *)

From Stdlib Require Import String List Bool Arith Lia Ascii.
From Stdlib Require QArith.
Import ListNotations.
Open Scope string_scope.
Open Scope list_scope.

(* ------------------------------------------------------------------------- *)
(** ** Plain JavaScript objects used as maps *)

Module JsObject.

Section Obj.
Variable V : Type.

(** Own enumerable properties, oldest first. *)
Definition t := list (string * V).

Definition empty : t := [].

(** [Object.keys(o)] and [Object.values(o)]. *)
Definition keys (o : t) : list string := map fst o.
Definition values (o : t) : list V := map snd o.

(** The own property [k] of [o], if any. *)
Fixpoint own (k : string) (o : t) : option V :=
  match o with
  | [] => None
  | (k', v) :: rest => if String.eqb k k' then Some v else own k rest
  end.

(** [o[k] = v]: an existing property keeps its place, a new one is added
    last.  (The session ids written by the program are UUIDs, so the special
    key [__proto__] and integer-like keys are never assigned.) *)
Fixpoint set (k : string) (v : V) (o : t) : t :=
  match o with
  | [] => [(k, v)]
  | (k', v') :: rest =>
      if String.eqb k k' then (k, v) :: rest else (k', v') :: set k v rest
  end.

(** [delete o[k]]: removes the own property, does nothing when there is
    none; it never throws on a plain object. *)
Fixpoint delete (k : string) (o : t) : t :=
  match o with
  | [] => []
  | (k', v') :: rest =>
      if String.eqb k k' then delete k rest else (k', v') :: delete k rest
  end.

(** The property names every plain object inherits from [Object.prototype]. *)
Definition prototype_keys : list string :=
  [ "constructor"; "__proto__"; "hasOwnProperty"; "isPrototypeOf";
    "propertyIsEnumerable"; "toLocaleString"; "toString"; "valueOf";
    "__defineGetter__"; "__defineSetter__";
    "__lookupGetter__"; "__lookupSetter__" ].

Definition inherited (k : string) : bool :=
  existsb (String.eqb k) prototype_keys.

(** What the expression [o[k]] evaluates to. *)
Inductive lookup : Type :=
| Undefined
| Own (v : V)
| Inherited (name : string).

Definition get (o : t) (k : string) : lookup :=
  match own k o with
  | Some v => Own v
  | None => if inherited k then Inherited k else Undefined
  end.

(** Truthiness of [o[k]]: stored records and the functions and objects found
    on the prototype are truthy, [undefined] is not. *)
Definition truthy (l : lookup) : bool :=
  match l with
  | Undefined => false
  | Own _ | Inherited _ => true
  end.

(** [for (const key in o) delete o[key]]: the prototype's properties are not
    enumerable, so the loop visits the own keys. *)
Definition clear (o : t) : t :=
  fold_left (fun acc key => delete key acc) (keys o) o.

(** Representation invariant: an object has each property once. *)
Definition wf (o : t) : Prop := NoDup (keys o).

End Obj.

Arguments empty {V}.
Arguments keys {V} o.
Arguments values {V} o.
Arguments own {V} k o.
Arguments set {V} k v o.
Arguments delete {V} k o.
Arguments Undefined {V}.
Arguments Own {V} v.
Arguments Inherited {V} name.
Arguments get {V} o k.
Arguments truthy {V} l.
Arguments clear {V} o.
Arguments wf {V} o.

End JsObject.

(* ------------------------------------------------------------------------- *)
(** ** String operations of the [/sse] handler *)

(** [s.startsWith(p)]. *)
Definition startsWith (s p : string) : bool := String.prefix p s.

(** [s.slice(n)]: [s] without its first [n] characters. *)
Fixpoint slice (n : nat) (s : string) : string :=
  match n, s with
  | O, _ => s
  | S _, EmptyString => EmptyString
  | S n', String _ rest => slice n' rest
  end.

(** White space removed by [trim].  A header value reaches the handler as a
    string of Latin-1 characters, one per byte, so a character is a byte
    here; among these [trim] removes tab, line feed, vertical tab, form feed,
    carriage return, space and the no-break space U+00A0. *)
Definition is_space (c : ascii) : bool :=
  let n := nat_of_ascii c in
  ((9 <=? n)%nat && (n <=? 13)%nat) || (n =? 32)%nat || (n =? 160)%nat.

Fixpoint trimStart (s : string) : string :=
  match s with
  | EmptyString => EmptyString
  | String c rest => if is_space c then trimStart rest else s
  end.

Fixpoint trimEnd (s : string) : string :=
  match s with
  | EmptyString => EmptyString
  | String c rest =>
      match trimEnd rest with
      | EmptyString => if is_space c then EmptyString else String c EmptyString
      | rest' => String c rest'
      end
  end.

(** [s.trim()]. *)
Definition trim (s : string) : string := trimEnd (trimStart s).

(** Truthiness of a string that may be [undefined]: the empty string and
    [undefined] are falsy. *)
Definition truthy_string (s : option string) : bool :=
  match s with
  | Some s => negb (String.eqb s "")
  | None => false
  end.

(** The property key an index expression uses for a value that may be
    [undefined]. *)
Definition property_key (s : option string) : string :=
  match s with
  | Some s => s
  | None => "undefined"
  end.

(* ------------------------------------------------------------------------- *)
(** ** Values crossing the boundary *)

(** [JNumber] is a count; [JReal] is a number that need not be whole, such
    as the seconds [process.uptime()] returns (a finite double, which is a
    rational number). *)
Inductive JsonValue : Type :=
| JString (s : string)
| JNumber (n : nat)
| JReal (q : QArith_base.Q).

Inductive Body : Type :=
| Text (s : string)
| Json (fields : list (string * JsonValue)).

(** [res.status(code).send(..)] or [res.status(code).json(..)]. *)
Record Reply : Type := mkReply { status : nat; body : Body }.

(** A thrown value: an [Error] with its message, or anything else. *)
Inductive Thrown : Type :=
| JsError (message : string)
| JsValue (v : string).

(** How an awaited promise settles, if it does. *)
Inductive Settled : Type :=
| Fulfilled
| Rejected (reason : Thrown)
| Pending.

(** The express response object, as far as the handlers observe it. *)
Record Res : Type := mkRes { headersSent : bool; sent : option Reply }.

Definition fresh_res : Res := mkRes false None.

Record SseRequest : Type := mkSseRequest {
  authorization : option string;   (* req.headers.authorization *)
  query_user : option string       (* req.query.user *)
}.

Record PostRequest : Type := mkPostRequest {
  query_sessionId : option string; (* req.query.sessionId *)
  post_body : string
}.

(** What [transport.handlePostMessage(req, res)] did: the reply it wrote on
    [res], if any, and how its promise settled. *)
Record PostResult : Type := mkPostResult {
  written : option Reply;
  settled : Settled
}.

(** An [SSEServerTransport]: the session id generated when it was
    constructed, and its two methods used here. *)
Record Transport : Type := mkTransport {
  sessionId : string;
  handlePostMessage : PostRequest -> PostResult;
  close : Settled
}.

Record TransportPayload : Type := mkPayload {
  transport : Transport;
  currentJwt : string
}.

(** [let transports: Record<string, TransportPayload> = {}]. *)
Definition Registry : Type := JsObject.t TransportPayload.

Definition transports_init : Registry := JsObject.empty.

(** What is fixed once start-up is over: the environment and the lists built
    before [main] runs. *)
Record Config : Type := mkConfig {
  NODE_ENV : string;
  integrations : list string;
  extraTools : list string
}.

(** Modelled from the spec: the TokenCodec.  [signJwt] and [getSigningKey]
    are defined in ./utils and [jwt] is the jsonwebtoken package; none of
    them is part of index.ts.  [signJwt u] stands for [signJwt({ userId: u })],
    [jwt_decode_sub tok] for [jwt.decode(tok)?.sub] and [jwt_verify tok] for
    [jwt.verify(tok, getSigningKey())] not throwing. *)
Record TokenCodec : Type := mkCodec {
  signJwt : string -> string;
  jwt_decode_sub : string -> option string;
  jwt_verify : string -> bool
}.


Definition codec_verifies_signed (codec : TokenCodec) : Prop :=
  forall u, jwt_verify codec (signJwt codec u) = true.

(* ------------------------------------------------------------------------- *)
(** ** Effects *)

Inductive Event : Type :=
| LogConnectedClients (clients : list (string * option string))
| LogClientDisconnected (sid : string)
| LogReceivedMessage (sid : option string)
| ErrorNoTransport (sid : option string)
| LogClosingAll
| TransportCreated (sid : string)      (* new SSEServerTransport(..) *)
| CloseHookRegistered (sid : string)   (* res.on("close", ..) *)
| ServerConnect (sid : string)         (* server.connect(transport) *)
| Delegated (sid : string)             (* transport.handlePostMessage(..) *)
| TransportClose (sid : string)        (* transport.close() *)
| ServerClose                          (* server.close() *)
| Respond (r : Reply)                  (* a reply attempted by a handler *)
| ProcessExit (code : nat).

(** How a handler ends. *)
Inductive Completion : Type :=
| Returned
| Threw (e : Thrown)
| Suspended
| Exited (code : nat).

Record Outcome : Type := mkOutcome {
  registry : Registry;
  trace : list Event;
  response : Res;
  completion : Completion
}.

(** Sending a reply on a response whose headers are already out throws. *)
Definition headers_sent_error : Thrown :=
  JsError "Cannot set headers after they are sent to the client".

(** [return res.status(code).send(..)] as the last act of a handler that has
    produced [tr] so far. *)
Definition reply_and_return
    (reg : Registry) (tr : list Event) (res : Res) (r : Reply) : Outcome :=
  if headersSent res
  then mkOutcome reg (tr ++ [Respond r]) res (Threw headers_sent_error)
  else mkOutcome reg (tr ++ [Respond r]) (mkRes true (Some r)) Returned.

(** [SessionRegistry.count()], which is [Object.keys(transports).length]. *)
Definition count (reg : Registry) : nat := length (JsObject.keys reg).

(* ------------------------------------------------------------------------- *)
(** ** GET /sse *)

Definition unauthorized : Reply := mkReply 401 (Text "Unauthorized").

(** The first [if] chain of the handler: the token the session is bound to,
    or [None] on the branch that answers 401. *)
(** [currentJwt && currentJwt.startsWith("Bearer ")]. *)
Definition bearer_header (req : SseRequest) : bool :=
  match authorization req with
  | Some currentJwt =>
      negb (String.eqb currentJwt "") && startsWith currentJwt "Bearer "
  | None => false
  end.

(** [envs.NODE_ENV === "development" && req.query.user]. *)
Definition dev_fallback (envs : Config) (req : SseRequest) : bool :=
  String.eqb (NODE_ENV envs) "development" && truthy_string (query_user req).

Definition session_jwt
    (codec : TokenCodec) (envs : Config) (req : SseRequest) : option string :=
  if bearer_header req
  then Some (trim (slice 7 (property_key (authorization req))))
  else if dev_fallback envs req
  then Some (signJwt codec (property_key (query_user req)))
  else None.

(** [transports[transport.sessionId] = { transport, currentJwt }]. *)
Definition register (tr : Transport) (jwt : string) (reg : Registry)
    : Registry :=
  JsObject.set (sessionId tr) (mkPayload tr jwt) reg.

(** The argument of the "Connected clients:" debug line. *)
Definition connected_clients (codec : TokenCodec) (reg : Registry)
    : list (string * option string) :=
  map (fun key =>
         (key,
          match JsObject.get reg key with
          | JsObject.Own p => jwt_decode_sub codec (currentJwt p)
          | _ => None
          end))
      (JsObject.keys reg).

(** The handler.  [tr] is the transport [new SSEServerTransport] returns and
    [connected] is how [server.connect(transport)] settles. *)
Definition sse_handler
    (codec : TokenCodec) (envs : Config)
    (req : SseRequest) (tr : Transport) (connected : Settled)
    (reg : Registry) : Outcome :=
  match session_jwt codec envs req with
  | None => reply_and_return reg [] fresh_res unauthorized
  | Some currentJwt =>
      let reg' := register tr currentJwt reg in
      let events :=
        [ TransportCreated (sessionId tr);
          LogConnectedClients (connected_clients codec reg');
          CloseHookRegistered (sessionId tr);
          ServerConnect (sessionId tr) ] in
      mkOutcome reg' events fresh_res
        match connected with
        | Fulfilled => Returned
        | Rejected e => Threw e
        | Pending => Suspended
        end
  end.

(** The teardown hook registered with [res.on("close", ..)]. *)
Definition on_close (tr : Transport) (reg : Registry) : Outcome :=
  mkOutcome (JsObject.delete (sessionId tr) reg)
            [LogClientDisconnected (sessionId tr)]
            fresh_res Returned.

(* ------------------------------------------------------------------------- *)
(** ** POST /messages *)

Definition no_transport : Reply :=
  mkReply 404 (Json [("error", JString "No transport found for sessionId")]).

(** [err instanceof Error ? err.message : err]. *)
Definition error_text (err : Thrown) : string :=
  match err with
  | JsError message => message
  | JsValue v => v
  end.

(** Reading [.transport.handlePostMessage] off a value found on the prototype
    chain: [.transport] is [undefined] there. *)
Definition undefined_transport_error : Thrown :=
  JsError "Cannot read properties of undefined (reading 'handlePostMessage')".

(** The response after the transport has dealt with it. *)
Definition after_transport (res : Res) (w : option Reply) : Res :=
  match w with
  | Some r => mkRes true (Some r)
  | None => res
  end.

(** The last two statements of the handler. *)
Definition not_found_tail
    (reg : Registry) (tr : list Event) (res : Res) (sid : option string)
    : Outcome :=
  reply_and_return reg (tr ++ [ErrorNoTransport sid]) res no_transport.

(** The [catch] block followed, when it does not return, by the rest of the
    handler. *)
Definition catch_block
    (reg : Registry) (tr : list Event) (res : Res) (sid : option string)
    (err : Thrown) : Outcome :=
  if negb (headersSent res)
  then reply_and_return reg tr res (mkReply 500 (Text (error_text err)))
  else not_found_tail reg tr res sid.

Definition messages_handler (req : PostRequest) (reg : Registry) : Outcome :=
  let sid := query_sessionId req in
  let transportPayload := JsObject.get reg (property_key sid) in
  let tr := [LogReceivedMessage sid] in
  if truthy_string sid && JsObject.truthy transportPayload
  then
    match transportPayload with
    | JsObject.Own p =>
        let r := handlePostMessage (transport p) req in
        let tr' := tr ++ [Delegated (sessionId (transport p))] in
        let res := after_transport fresh_res (written r) in
        match settled r with
        | Fulfilled => mkOutcome reg tr' res Returned
        | Pending => mkOutcome reg tr' res Suspended
        | Rejected err => catch_block reg tr' res sid err
        end
    | _ => catch_block reg tr fresh_res sid undefined_transport_error
    end
  else not_found_tail reg tr fresh_res sid.

(* ------------------------------------------------------------------------- *)
(** ** GET /health *)

(** [timestamp] is [new Date().toISOString()] and [uptime] is
    [process.uptime()]; both are read from the runtime. *)
Definition healthStatus
    (envs : Config) (timestamp : string) (uptime : QArith_base.Q)
    (reg : Registry)
    : list (string * JsonValue) :=
  [ ("status", JString "healthy");
    ("timestamp", JString timestamp);
    ("uptime", JReal uptime);
    ("version", JString "1.0.0");
    ("environment", JString (NODE_ENV envs));
    ("activeConnections", JNumber (length (JsObject.keys reg)));
    ("integrations", JNumber (length (integrations envs)));
    ("tools", JNumber (length (extraTools envs))) ].

Definition health_handler
    (envs : Config) (timestamp : string) (uptime : QArith_base.Q)
    (reg : Registry)
    : Outcome :=
  reply_and_return reg [] fresh_res
    (mkReply 200 (Json (healthStatus envs timestamp uptime reg))).

(* ------------------------------------------------------------------------- *)
(** ** handleShutdown *)

Definition is_rejected (s : Settled) : bool :=
  match s with Rejected _ => true | _ => false end.

Definition is_pending (s : Settled) : bool :=
  match s with Pending => true | _ => false end.

Definition is_fulfilled (s : Settled) : bool :=
  match s with Fulfilled => true | _ => false end.

(** [Promise.all]: rejects as soon as one member rejects, is fulfilled when
    all are, and otherwise never settles.  Settling times are not modelled;
    of several rejections the first in the list is reported. *)
Definition promise_all (ps : list Settled) : Settled :=
  match find is_rejected ps with
  | Some r => r
  | None => if existsb is_pending ps then Pending else Fulfilled
  end.

(** The loop [for (const key in transports) delete transports[key]]. *)
Definition drain (reg : Registry) : Registry := JsObject.clear reg.

(** [server_closed] is how [server.close()] settles.  The outcome records
    the calls the handler makes, in order, and the registry as the handler's
    own statements leave it; the teardown hooks of the streams that are being
    closed are separate steps ([on_close]), which the event loop may run
    while the handler is suspended. *)
Definition handleShutdown (server_closed : Settled) (reg : Registry)
    : Outcome :=
  let payloads := JsObject.values reg in
  let closing :=
    LogClosingAll
      :: map (fun p => TransportClose (sessionId (transport p))) payloads in
  match promise_all (map (fun p => close (transport p)) payloads) with
  | Rejected e => mkOutcome reg closing fresh_res (Threw e)
  | Pending => mkOutcome reg closing fresh_res Suspended
  | Fulfilled =>
      match server_closed with
      | Rejected e => mkOutcome reg (closing ++ [ServerClose]) fresh_res (Threw e)
      | Pending => mkOutcome reg (closing ++ [ServerClose]) fresh_res Suspended
      | Fulfilled =>
          mkOutcome (drain reg)
                    (closing ++ [ServerClose; ProcessExit 0])
                    fresh_res (Exited 0)
      end
  end.

(* ------------------------------------------------------------------------- *)
(** ** Reading traces *)

Definition close_calls (tr : list Event) : list string :=
  flat_map (fun e => match e with TransportClose sid => [sid] | _ => [] end) tr.

Definition delegations (tr : list Event) : list string :=
  flat_map (fun e => match e with Delegated sid => [sid] | _ => [] end) tr.

Definition replies (tr : list Event) : list Reply :=
  flat_map (fun e => match e with Respond r => [r] | _ => [] end) tr.

Definition exits (tr : list Event) : list nat :=
  flat_map (fun e => match e with ProcessExit c => [c] | _ => [] end) tr.

(* ------------------------------------------------------------------------- *)
(** ** Sequences of registry operations *)

(** The three ways the program changes the registry: the assignment in the
    [/sse] handler, the teardown hook, and the loop of [handleShutdown]. *)
Inductive Op : Type :=
| Connect (tr : Transport) (jwt : string)
| Disconnect (tr : Transport)
| Drain.

Definition step (reg : Registry) (op : Op) : Registry :=
  match op with
  | Connect tr jwt => register tr jwt reg
  | Disconnect tr => registry (on_close tr reg)
  | Drain => drain reg
  end.

Definition run (ops : list Op) (reg : Registry) : Registry :=
  fold_left step ops reg.

(** The ids of the sessions a sequence connects, in order. *)
Definition connect_ids (ops : list Op) : list string :=
  flat_map (fun op => match op with
                      | Connect tr _ => [sessionId tr]
                      | _ => []
                      end) ops.

(** The count as the specification words it: sessions connected, and among
    them those that were later disconnected or drained. *)
Definition sessions_connected (ops : list Op) : nat :=
  length (connect_ids ops).

Definition ends (sid : string) (op : Op) : bool :=
  match op with
  | Connect _ _ => false
  | Disconnect tr => String.eqb sid (sessionId tr)
  | Drain => true
  end.

Fixpoint sessions_ended (ops : list Op) : nat :=
  match ops with
  | [] => 0
  | Connect tr _ :: rest =>
      (if existsb (ends (sessionId tr)) rest then 1 else 0)
      + sessions_ended rest
  | _ :: rest => sessions_ended rest
  end.

(** A session id is live after [ops] when some connection of that id is not
    followed by its disconnection or by a drain. *)
Fixpoint live (sid : string) (ops : list Op) : bool :=
  match ops with
  | [] => false
  | Connect tr _ :: rest =>
      (String.eqb sid (sessionId tr) && negb (existsb (ends sid) rest))
      || live sid rest
  | _ :: rest => live sid rest
  end.

(* ------------------------------------------------------------------------- *)
(** ** A concrete codec and concrete sessions *)

(** The text after the first dot of a token. *)
Fixpoint after_dot (s : string) : option string :=
  match s with
  | EmptyString => None
  | String c rest =>
      if Ascii.eqb c "."%char then Some rest else after_dot rest
  end.

(** Modelled from the spec: a stand-in for the TokenCodec of ./utils, enough
    to run the handlers.  A token is the key tag [k1], a dot and the user id;
    verification checks the tag and decoding reads the part after the dot. *)
Definition tag_codec : TokenCodec :=
  mkCodec (fun userId => String.append "k1." userId)
          after_dot
          (fun token => String.prefix "k1." token).

Definition production : Config := mkConfig "production" ["slack"] ["proxy"].
Definition development : Config := mkConfig "development" ["slack"] ["proxy"].

Definition accepted : Reply := mkReply 202 (Text "Accepted").

(** A transport whose calls all succeed. *)
Definition sound_transport (sid : string) : Transport :=
  mkTransport sid (fun _ => mkPostResult (Some accepted) Fulfilled) Fulfilled.



(** A transport that fails a message before writing anything. *)
Definition early_failing_transport (sid : string) : Transport :=
  mkTransport sid
    (fun _ => mkPostResult None (Rejected (JsError "Invalid message")))
    Fulfilled.

Definition not_established : Reply :=
  mkReply 500 (Text "SSE connection not established").

(** A transport that fails a message after it has written its reply, as the
    SDK's transport does when its stream is not established: it answers 500
    and then throws. *)
Definition late_failing_transport (sid : string) : Transport :=
  mkTransport sid
    (fun _ => mkPostResult (Some not_established)
                           (Rejected (JsError "SSE connection not established")))
    Fulfilled.

Definition three_sessions : Registry :=
  run [ Connect (sound_transport "a") "k1.ann";
        Connect (sound_transport "b") "k1.bob";
        Connect (sound_transport "c") "k1.cy" ] transports_init.

(* ------------------------------------------------------------------------- *)
(** ** GET /setup *)

(** A query parameter as express parses it: absent, a string, or an array
    or nested object. *)
Inductive QueryValue : Type :=
| QAbsent
| QString (s : string)
| QOther.

(** The three properties read off the [payload] claim; a property that is
    [undefined] is left out by [JSON.stringify]. *)
Record TokenInfo : Type := mkTokenInfo {
  projectId : option JsonValue;
  loginToken : option JsonValue;
  integrationName : option JsonValue
}.

(** [decoded.payload.payload]: [undefined], [null], or a value whose
    properties can be read (with the three that the handler reads). *)
Inductive PayloadClaim : Type :=
| ClaimUndefined
| ClaimNull
| ClaimValue (info : TokenInfo).

(** [jwt.decode(token, { complete: true })], as far as the handler looks at
    it: nothing decoded, a string payload, or an object payload with its
    [payload] claim. *)
Inductive Decoded : Type :=
| DecodedNull
| DecodedString (s : string)
| DecodedObject (claim : PayloadClaim).

Definition invalid_token : Reply :=
  mkReply 400 (Json [("error", JString "Invalid token")]).

(** The page sent with status 200 and type text/html: the template of the
    handler with its two holes, the SDK url and the serialised [tokenInfo]. *)
Record SetupPage : Type := mkSetupPage {
  sdk_url : string;
  token_info : list (string * JsonValue)
}.

Inductive SetupResult : Type :=
| SetupRejected (r : Reply)
| SetupServed (page : SetupPage)
| SetupThrew (e : Thrown).

(** The defined properties of [tokenInfo], in the order they are written. *)
Definition tokenInfo (payload : TokenInfo) : list (string * JsonValue) :=
  (match projectId payload with Some v => [("projectId", v)] | None => [] end)
  ++ (match loginToken payload with Some v => [("loginToken", v)] | None => [] end)
  ++ (match integrationName payload with
      | Some v => [("integrationName", v)]
      | None => []
      end).

Definition undefined_payload_error : Thrown :=
  JsError "Cannot read properties of undefined (reading 'projectId')".

Definition null_payload_error : Thrown :=
  JsError "Cannot read properties of null (reading 'projectId')".

(** The handler.  [getAccessTokenById] is the lookup of ./access-tokens,
    [decode] is [jwt.decode] with [complete: true] and [cdn] is
    [envs.CONNECT_SDK_CDN_URL]. *)
Definition setup_handler
    (codec : TokenCodec)
    (getAccessTokenById : string -> option string)
    (decode : string -> Decoded)
    (cdn : string) (query_token : QueryValue) : SetupResult :=
  match query_token with
  | QString tokenId =>
      if String.eqb tokenId "" then SetupRejected invalid_token else
      match getAccessTokenById tokenId with
      | None => SetupRejected invalid_token
      | Some token =>
          if String.eqb token "" then SetupRejected invalid_token else
          if negb (jwt_verify codec token) then SetupRejected invalid_token else
          match decode token with
          | DecodedObject (ClaimValue payload) =>
              SetupServed (mkSetupPage cdn (tokenInfo payload))
          | DecodedObject ClaimUndefined => SetupThrew undefined_payload_error
          | DecodedObject ClaimNull => SetupThrew null_payload_error
          | DecodedNull | DecodedString _ => SetupRejected invalid_token
          end
      end
  | QAbsent | QOther => SetupRejected invalid_token
  end.

(** A store with one access token, and a decoder for the tokens of
    [tag_codec]: the part after the dot names the project. *)
Definition one_token_store (tokenId : string) : option string :=
  if String.eqb tokenId "t-1" then Some "k1.proj" else
  if String.eqb tokenId "t-2" then Some "zz.proj" else
  if String.eqb tokenId "t-3" then Some "k1." else None.

Definition tag_decode (token : string) : Decoded :=
  match after_dot token with
  | None => DecodedNull
  | Some EmptyString => DecodedObject ClaimUndefined
  | Some project =>
      DecodedObject
        (ClaimValue (mkTokenInfo (Some (JString project)) None
                                 (Some (JString "slack"))))
  end.

(* ========================================================================= *)
(** * Properties *)

(* ------------------------------------------------------------------------- *)
(** ** Facts about objects used as maps *)

Section ObjectFacts.
Variable V : Type.
Implicit Types (o : JsObject.t V) (k : string) (v : V).

Import JsObject.

Lemma own_None_iff k o : own k o = None <-> ~ In k (keys o).
Proof.
  induction o as [|[k' v'] rest IH]; simpl.
  - tauto.
  - destruct (String.eqb_spec k k') as [->|Hne].
    + split; [discriminate | intros H; exfalso; apply H; now left].
    + rewrite IH. split.
      * intros H [E|I]; [congruence | auto].
      * intros H I. apply H. now right.
Qed.

Lemma own_In_keys k o v : own k o = Some v -> In k (keys o).
Proof.
  intros E. destruct (in_dec string_dec k (keys o)) as [HI|HI]; [exact HI|].
  apply own_None_iff in HI. congruence.
Qed.

Lemma keys_set_present k v o : In k (keys o) -> keys (set k v o) = keys o.
Proof.
  induction o as [|[k' v'] rest IH]; simpl; [tauto|].
  destruct (String.eqb_spec k k') as [->|Hne]; simpl; [reflexivity|].
  intros [E|I]; [congruence|]. now rewrite IH.
Qed.

Lemma keys_set_absent k v o :
  ~ In k (keys o) -> keys (set k v o) = keys o ++ [k].
Proof.
  induction o as [|[k' v'] rest IH]; simpl; [reflexivity|].
  destruct (String.eqb_spec k k') as [->|Hne]; simpl.
  - intros H; exfalso; apply H; now left.
  - intros H. rewrite IH; [reflexivity|]. intros I; apply H; now right.
Qed.

Lemma In_keys_set k k' v o :
  In k' (keys (set k v o)) <-> k' = k \/ In k' (keys o).
Proof.
  destruct (in_dec string_dec k (keys o)) as [HI|HI].
  - rewrite keys_set_present by assumption.
    split; [auto | intros [->|H]; assumption].
  - rewrite keys_set_absent by assumption. rewrite in_app_iff. simpl.
    split; [intros [H|[H|[]]]; auto | intros [H|H]; auto].
Qed.

Lemma own_set_same k v o : own k (set k v o) = Some v.
Proof.
  induction o as [|[k' v'] rest IH]; simpl.
  - now rewrite String.eqb_refl.
  - destruct (String.eqb_spec k k') as [->|Hne]; simpl.
    + now rewrite String.eqb_refl.
    + destruct (String.eqb_spec k k'); [contradiction | exact IH].
Qed.

Lemma own_set_other k k' v o : k' <> k -> own k' (set k v o) = own k' o.
Proof.
  intros Hne.
  induction o as [|[k0 v0] rest IH]; simpl.
  - destruct (String.eqb_spec k' k); [contradiction | reflexivity].
  - destruct (String.eqb_spec k k0) as [->|Hk]; simpl.
    + destruct (String.eqb_spec k' k0); [contradiction | reflexivity].
    + destruct (String.eqb_spec k' k0); [reflexivity | exact IH].
Qed.

Lemma own_delete_other k k' o : k' <> k -> own k' (delete k o) = own k' o.
Proof.
  intros Hne.
  induction o as [|[k0 v0] rest IH]; simpl; [reflexivity|].
  destruct (String.eqb_spec k k0) as [->|Hk]; simpl.
  - destruct (String.eqb_spec k' k0); [contradiction | exact IH].
  - destruct (String.eqb_spec k' k0); [reflexivity | exact IH].
Qed.

Lemma keys_delete k o :
  keys (delete k o) = filter (fun k' => negb (String.eqb k k')) (keys o).
Proof.
  induction o as [|[k' v'] rest IH]; simpl; [reflexivity|].
  destruct (String.eqb k k'); simpl; now rewrite IH.
Qed.

Lemma In_keys_delete k k' o :
  In k' (keys (delete k o)) <-> In k' (keys o) /\ k' <> k.
Proof.
  rewrite keys_delete, filter_In, negb_true_iff.
  destruct (String.eqb_spec k k') as [->|Hne]; split; intros [H1 H2];
    try discriminate; try congruence; split; auto.
Qed.

Lemma own_delete_same k o : own k (delete k o) = None.
Proof. apply own_None_iff. rewrite In_keys_delete. tauto. Qed.

Lemma delete_absent k o : ~ In k (keys o) -> delete k o = o.
Proof.
  induction o as [|[k' v'] rest IH]; simpl; [reflexivity|].
  destruct (String.eqb_spec k k') as [->|Hne].
  - intros H; exfalso; apply H; now left.
  - intros H. rewrite IH; [reflexivity|]. intros I; apply H; now right.
Qed.

Lemma delete_idempotent k o : delete k (delete k o) = delete k o.
Proof. apply delete_absent. rewrite In_keys_delete. tauto. Qed.

Lemma wf_set k v o : wf o -> wf (set k v o).
Proof.
  unfold wf. intros Hnd.
  destruct (in_dec string_dec k (keys o)) as [HI|HI].
  - now rewrite keys_set_present.
  - rewrite keys_set_absent by assumption.
    apply NoDup_app; [assumption | repeat constructor; simpl; tauto |].
    intros x Hx [<-|[]]. contradiction.
Qed.

Lemma wf_delete k o : wf o -> wf (delete k o).
Proof. unfold wf. rewrite keys_delete. apply NoDup_filter. Qed.

Lemma length_keys_delete_present k o :
  wf o -> In k (keys o) -> S (length (keys (delete k o))) = length (keys o).
Proof.
  unfold wf.
  induction o as [|[k' v'] rest IH]; simpl; [tauto|].
  intros Hnd HI. inversion Hnd as [|? ? Hnotin Hnd']; subst.
  destruct (String.eqb_spec k k') as [->|Hne].
  - rewrite delete_absent by assumption. reflexivity.
  - destruct HI as [E|HI]; [congruence|].
    simpl. now rewrite IH.
Qed.

Lemma fold_delete_nil (ks : list string) :
  fold_left (fun acc key => delete key acc) ks ([] : JsObject.t V) = [].
Proof. induction ks as [|k ks IH]; simpl; auto. Qed.

Lemma fold_delete_cons (ks : list string) : forall k v o,
  In k ks ->
  fold_left (fun acc key => delete key acc) ks ((k, v) :: o) =
  fold_left (fun acc key => delete key acc) ks o.
Proof.
  induction ks as [|k0 ks IH]; simpl; intros k v o HI; [tauto|].
  destruct (String.eqb_spec k0 k) as [->|Hne]; [reflexivity|].
  destruct HI as [E|HI]; [congruence|].
  (* the head survives the deletion of [k0] *)
  change (fold_left (fun acc key => delete key acc) ks ((k, v) :: delete k0 o)
          = fold_left (fun acc key => delete key acc) ks (delete k0 o)).
  now apply IH.
Qed.

Lemma clear_empty o : clear o = empty.
Proof.
  unfold clear, empty.
  assert (G : forall ks, incl (keys o) ks ->
             fold_left (fun acc key => delete key acc) ks o = []).
  { induction o as [|[k v] rest IH]; intros ks Hincl.
    - apply fold_delete_nil.
    - rewrite fold_delete_cons by (apply Hincl; now left).
      apply IH. intros x Hx. apply Hincl. now right. }
  apply G, incl_refl.
Qed.

End ObjectFacts.

(* ------------------------------------------------------------------------- *)
(** ** GET /sse: admission *)

Lemma session_jwt_none codec envs req :
  session_jwt codec envs req = None <->
  bearer_header req = false /\ dev_fallback envs req = false.
Proof.
  unfold session_jwt.
  destruct (bearer_header req), (dev_fallback envs req);
    split; try discriminate; intuition discriminate.
Qed.

(** A header that starts with [Bearer ] is taken as it is: the handler
    never calls [jwt.verify]. *)
Lemma sse_bearer_accepted codec envs req tr connected reg :
  bearer_header req = true ->
  let out := sse_handler codec envs req tr connected reg in
  registry out =
    register tr (trim (slice 7 (property_key (authorization req)))) reg
  /\ replies (trace out) = [].
Proof.
  intros Hb. unfold sse_handler, session_jwt. rewrite Hb. simpl. auto.
Qed.

(** The last branch of the [if] chain. *)
Lemma sse_no_credential codec envs req tr connected reg :
  bearer_header req = false ->
  dev_fallback envs req = false ->
  sse_handler codec envs req tr connected reg
  = mkOutcome reg [Respond unauthorized] (mkRes true (Some unauthorized))
              Returned.
Proof.
  intros Hb Hd.
  assert (E : session_jwt codec envs req = None)
    by (apply session_jwt_none; auto).
  unfold sse_handler. now rewrite E.
Qed.

(** C1, as amended: a [GET /sse] request with no [Authorization] header that
    starts with [Bearer ], and to which the development fallback does not
    apply, is answered 401 with the plain-text body [Unauthorized]; no
    transport is created and the registry is left as it was. *)
Theorem sse_unauthorized codec envs req tr connected reg :
  bearer_header req = false ->
  dev_fallback envs req = false ->
  let out := sse_handler codec envs req tr connected reg in
  sent (response out) = Some unauthorized
  /\ replies (trace out) = [unauthorized]
  /\ trace out = [Respond unauthorized]
  /\ registry out = reg
  /\ completion out = Returned.
Proof.
  intros Hb Hd. cbv zeta.
  rewrite (sse_no_credential codec envs req tr connected reg Hb Hd).
  cbn. repeat split.
Qed.

Lemma sse_unauthorized_witness :
  let req := mkSseRequest (Some "Basic dXNlcjpwdw==") (Some "alice") in
  let out := sse_handler tag_codec production req (sound_transport "s1")
                         Fulfilled three_sessions in
  sent (response out) = Some unauthorized
  /\ replies (trace out) = [unauthorized]
  /\ trace out = [Respond unauthorized]
  /\ registry out = three_sessions
  /\ completion out = Returned.
Proof.
  apply (sse_unauthorized tag_codec production
           (mkSseRequest (Some "Basic dXNlcjpwdw==") (Some "alice"))
           (sound_transport "s1") Fulfilled three_sessions);
    reflexivity.
Defined.

(** C1, as stated, fails: a Bearer token that does not verify is not answered
    401; a session is created for it and the registry grows. *)
Lemma sse_unverified_bearer_accepted :
  let req := mkSseRequest (Some "Bearer forged.token") None in
  let out := sse_handler tag_codec production req (sound_transport "s1")
                         Fulfilled transports_init in
  jwt_verify tag_codec "forged.token" = false
  /\ replies (trace out) = []
  /\ sent (response out) = None
  /\ JsObject.keys (registry out) = ["s1"]
  /\ ~ (sent (response out) = Some unauthorized
        /\ registry out = transports_init).
Proof.
  cbv zeta. repeat split; try reflexivity.
  intros [H _]. discriminate H.
Qed.



Lemma tag_codec_verifies_signed : codec_verifies_signed tag_codec.
Proof. intros u. destruct u; reflexivity. Qed.


(** C10, as amended: in development mode, a request that carries a
    non-empty [user] parameter and an [Authorization] header that does not
    start with [Bearer ] is taken through the development branch: a token is
    signed for that user and the session is registered; nothing is answered
    401. *)
Theorem sse_dev_fallback_non_bearer codec envs req tr connected reg h u :
  NODE_ENV envs = "development" ->
  query_user req = Some u ->
  u <> "" ->
  authorization req = Some h ->
  startsWith h "Bearer " = false ->
  let out := sse_handler codec envs req tr connected reg in
  registry out = register tr (signJwt codec u) reg
  /\ JsObject.own (sessionId tr) (registry out)
     = Some (mkPayload tr (signJwt codec u))
  /\ replies (trace out) = []
  /\ sent (response out) = None.
Proof.
  intros Hdev Huser Hu Hauth Hpre out. subst out.
  unfold sse_handler, session_jwt, bearer_header, dev_fallback.
  rewrite Hauth, Hpre, andb_false_r, Hdev, Huser. cbn [truthy_string].
  destruct (String.eqb_spec u ""); [contradiction|].
  cbn -[register]. repeat split.
  unfold register. apply own_set_same.
Qed.

Lemma sse_dev_fallback_non_bearer_witness :
  let req := mkSseRequest (Some "Basic dXNlcjpwdw==") (Some "alice") in
  let out := sse_handler tag_codec development req (sound_transport "s1")
                         Fulfilled transports_init in
  registry out = register (sound_transport "s1") "k1.alice" transports_init
  /\ JsObject.own "s1" (registry out)
     = Some (mkPayload (sound_transport "s1") "k1.alice")
  /\ replies (trace out) = []
  /\ sent (response out) = None.
Proof.
  apply (sse_dev_fallback_non_bearer tag_codec development
           (mkSseRequest (Some "Basic dXNlcjpwdw==") (Some "alice"))
           (sound_transport "s1") Fulfilled transports_init
           "Basic dXNlcjpwdw==" "alice");
    try reflexivity.
  discriminate.
Defined.

(** C10, as stated, fails: in development mode a request with a header that
    does not start with [Bearer ] and with the parameter [user=] (present,
    empty) is answered 401, and no session is registered. *)
Lemma sse_dev_fallback_empty_user_rejected :
  let req := mkSseRequest (Some "Basic dXNlcjpwdw==") (Some "") in
  let out := sse_handler tag_codec development req (sound_transport "s1")
                         Fulfilled transports_init in
  replies (trace out) = [unauthorized]
  /\ sent (response out) = Some unauthorized
  /\ JsObject.own "s1" (registry out) = None
  /\ ~ (replies (trace out) = []
        /\ JsObject.own "s1" (registry out)
           = Some (mkPayload (sound_transport "s1") (signJwt tag_codec ""))).
Proof.
  cbv zeta. repeat split; try reflexivity.
  intros [H _]. discriminate H.
Qed.

(* ------------------------------------------------------------------------- *)
(** ** POST /messages *)

Lemma get_own (reg : Registry) k p :
  JsObject.own k reg = Some p -> JsObject.get reg k = JsObject.Own p.
Proof. unfold JsObject.get. now intros ->. Qed.

(** All a request can do to the registry is read it. *)
Lemma messages_registry_unchanged req reg :
  registry (messages_handler req reg) = reg.
Proof.
  unfold messages_handler, catch_block, not_found_tail, reply_and_return.
  repeat match goal with
         | |- context [if ?b then _ else _] => destruct b
         | |- context [match ?x with _ => _ end] => destruct x
         end; reflexivity.
Qed.

Lemma run_snoc ops op reg : run (ops ++ [op]) reg = step (run ops reg) op.
Proof. unfold run. now rewrite fold_left_app. Qed.

(** Every entry the program writes is stored under the session id of its own
    transport. *)
Lemma run_keyed ops : forall sid p,
  JsObject.own sid (run ops transports_init) = Some p ->
  sessionId (transport p) = sid.
Proof.
  induction ops as [|op ops IH] using rev_ind; intros sid p.
  - discriminate.
  - rewrite run_snoc. destruct op as [tr jwt|tr|]; cbn [step on_close registry].
    + unfold register.
      destruct (string_dec sid (sessionId tr)) as [->|Hne].
      * rewrite own_set_same. intros [= <-]. reflexivity.
      * rewrite own_set_other by assumption. apply IH.
    + destruct (string_dec sid (sessionId tr)) as [->|Hne].
      * now rewrite own_delete_same.
      * rewrite own_delete_other by assumption. apply IH.
    + unfold drain. rewrite clear_empty. discriminate.
Qed.

Lemma messages_registered req reg sid p :
  query_sessionId req = Some sid ->
  sid <> "" ->
  JsObject.own sid reg = Some p ->
  messages_handler req reg
  = let r := handlePostMessage (transport p) req in
    let tr := [LogReceivedMessage (Some sid);
               Delegated (sessionId (transport p))] in
    let res := after_transport fresh_res (written r) in
    match settled r with
    | Fulfilled => mkOutcome reg tr res Returned
    | Pending => mkOutcome reg tr res Suspended
    | Rejected err => catch_block reg tr res (Some sid) err
    end.
Proof.
  intros Hq Hne Hown.
  unfold messages_handler. rewrite Hq. cbn [property_key truthy_string].
  rewrite (get_own reg sid p Hown).
  destruct (String.eqb_spec sid ""); [contradiction|]. reflexivity.
Qed.

(** C5: a request whose [sessionId] names a registered session is handed to
    the transport registered under that id, once, and to no other; in a
    registry the program has built, that transport is the one of the session
    with this very id.  What the request gets back is what that transport's
    [handlePostMessage] did with it: its reply is the response, its promise
    decides how the handler ends, and the sessions registered under other
    ids have no part in it. *)
Theorem messages_delegated_once req reg sid p :
  query_sessionId req = Some sid ->
  sid <> "" ->
  JsObject.own sid reg = Some p ->
  let out := messages_handler req reg in
  let r := handlePostMessage (transport p) req in
  delegations (trace out) = [sessionId (transport p)]
  /\ (forall ops, reg = run ops transports_init ->
        delegations (trace out) = [sid])
  /\ (forall w, written r = Some w -> sent (response out) = Some w)
  /\ (settled r = Fulfilled ->
      response out = after_transport fresh_res (written r)
      /\ replies (trace out) = []
      /\ completion out = Returned)
  /\ (settled r = Pending ->
      response out = after_transport fresh_res (written r)
      /\ replies (trace out) = []
      /\ completion out = Suspended)
  /\ (forall e, settled r = Rejected e -> written r = None ->
      sent (response out) = Some (mkReply 500 (Text (error_text e))))
  /\ (forall reg', JsObject.own sid reg' = Some p ->
      trace (messages_handler req reg') = trace out
      /\ response (messages_handler req reg') = response out
      /\ completion (messages_handler req reg') = completion out).
Proof.
  intros Hq Hne Hown. cbv zeta.
  rewrite (messages_registered req reg sid p Hq Hne Hown). cbv zeta.
  assert (H : delegations
                (trace
                   match settled (handlePostMessage (transport p) req) with
                   | Fulfilled =>
                       mkOutcome reg
                         [LogReceivedMessage (Some sid);
                          Delegated (sessionId (transport p))]
                         (after_transport fresh_res
                            (written (handlePostMessage (transport p) req)))
                         Returned
                   | Pending =>
                       mkOutcome reg
                         [LogReceivedMessage (Some sid);
                          Delegated (sessionId (transport p))]
                         (after_transport fresh_res
                            (written (handlePostMessage (transport p) req)))
                         Suspended
                   | Rejected err =>
                       catch_block reg
                         [LogReceivedMessage (Some sid);
                          Delegated (sessionId (transport p))]
                         (after_transport fresh_res
                            (written (handlePostMessage (transport p) req)))
                         (Some sid) err
                   end)
              = [sessionId (transport p)]).
  { destruct (settled (handlePostMessage (transport p) req)); cbn;
      try reflexivity.
    unfold catch_block, not_found_tail, reply_and_return.
    destruct (written (handlePostMessage (transport p) req)); cbn;
      reflexivity. }
  split; [exact H|]. split.
  { intros ops ->. rewrite H. now rewrite (run_keyed ops sid p Hown). }
  split.
  { intros w Hw. rewrite Hw.
    destruct (settled (handlePostMessage (transport p) req)); cbn;
      reflexivity. }
  split; [intros ->; cbn; auto|].
  split; [intros ->; cbn; auto|].
  split.
  { intros e -> Hw. rewrite Hw. reflexivity. }
  intros reg' Hown'.
  rewrite (messages_registered req reg' sid p Hq Hne Hown'). cbv zeta.
  destruct (settled (handlePostMessage (transport p) req)); cbn; auto.
  unfold catch_block, not_found_tail, reply_and_return.
  destruct (written (handlePostMessage (transport p) req)); cbn; auto.
Qed.

Lemma messages_delegated_once_witness :
  let out := messages_handler (mkPostRequest (Some "b") "{}") three_sessions in
  delegations (trace out) = ["b"]
  /\ sent (response out) = Some accepted
  /\ completion out = Returned.
Proof.
  pose proof (messages_delegated_once (mkPostRequest (Some "b") "{}")
                three_sessions "b"
                (mkPayload (sound_transport "b") "k1.bob")
                eq_refl ltac:(discriminate) eq_refl) as H.
  cbv zeta in H. destruct H as (H1 & _ & H3 & H4 & _).
  split; [exact H1|]. split; [exact (H3 accepted eq_refl)|].
  exact (proj2 (proj2 (H4 eq_refl))).
Defined.

(** When the transport raises before anything was written, the handler
    answers 500 with the error's message. *)
Lemma messages_error_before_reply req reg sid p err :
  query_sessionId req = Some sid ->
  sid <> "" ->
  JsObject.own sid reg = Some p ->
  handlePostMessage (transport p) req = mkPostResult None (Rejected err) ->
  let out := messages_handler req reg in
  replies (trace out) = [mkReply 500 (Text (error_text err))]
  /\ sent (response out) = Some (mkReply 500 (Text (error_text err)))
  /\ completion out = Returned.
Proof.
  intros Hq Hne Hown Hpost out. subst out.
  unfold messages_handler. rewrite Hq. cbn [property_key truthy_string].
  rewrite (get_own reg sid p Hown).
  destruct (String.eqb_spec sid ""); [contradiction|].
  cbn [negb andb JsObject.truthy]. rewrite Hpost. cbn. auto.
Qed.

Example messages_error_before_reply_example :
  let reg := register (early_failing_transport "d") "k1.dee" three_sessions in
  let out := messages_handler (mkPostRequest (Some "d") "{}") reg in
  replies (trace out) = [mkReply 500 (Text "Invalid message")]
  /\ sent (response out) = Some (mkReply 500 (Text "Invalid message"))
  /\ completion out = Returned.
Proof.
  apply (messages_error_before_reply (mkPostRequest (Some "d") "{}")
           (register (early_failing_transport "d") "k1.dee" three_sessions)
           "d" (mkPayload (early_failing_transport "d") "k1.dee")
           (JsError "Invalid message"));
    [reflexivity | discriminate | reflexivity | reflexivity].
Qed.

(** When the transport raises after it has written its reply, the handler
    leaves the [catch] block without returning and runs into the 404 reply
    at the end of the function. *)
Lemma messages_error_after_reply req reg sid p w err :
  query_sessionId req = Some sid ->
  sid <> "" ->
  JsObject.own sid reg = Some p ->
  handlePostMessage (transport p) req = mkPostResult (Some w) (Rejected err) ->
  let out := messages_handler req reg in
  replies (trace out) = [no_transport]
  /\ In (ErrorNoTransport (Some sid)) (trace out)
  /\ sent (response out) = Some w
  /\ completion out = Threw headers_sent_error.
Proof.
  intros Hq Hne Hown Hpost out. subst out.
  unfold messages_handler. rewrite Hq. cbn [property_key truthy_string].
  rewrite (get_own reg sid p Hown).
  destruct (String.eqb_spec sid ""); [contradiction|].
  cbn [negb andb JsObject.truthy]. rewrite Hpost. cbn. intuition.
Qed.

(** C3, on the code: session [b] is registered and its transport raises
    after having answered 500 itself.  The handler still logs "No transport found"
    and calls [res.status(404).json(..)] on the response that was already
    sent, which throws out of the handler. *)
Theorem messages_second_reply_attempted :
  let reg := register (late_failing_transport "b") "k1.bob" three_sessions in
  let out := messages_handler (mkPostRequest (Some "b") "{}") reg in
  delegations (trace out) = ["b"]
  /\ sent (response out) = Some not_established
  /\ replies (trace out) = [no_transport]
  /\ replies (trace out) <> []
  /\ completion out = Threw headers_sent_error.
Proof.
  cbv zeta. repeat split; try reflexivity. discriminate.
Qed.

(** An id that is neither registered nor the name of an inherited property
    is answered 404, as is a request with no id. *)
Lemma messages_unknown_session req reg :
  (query_sessionId req = None
   \/ exists sid, query_sessionId req = Some sid
                  /\ JsObject.own sid reg = None
                  /\ JsObject.inherited sid = false) ->
  let out := messages_handler req reg in
  replies (trace out) = [no_transport]
  /\ sent (response out) = Some no_transport
  /\ delegations (trace out) = []
  /\ registry out = reg.
Proof.
  intros H out. subst out. unfold messages_handler.
  destruct H as [Hq | (sid & Hq & Hown & Hinh)]; rewrite Hq.
  - cbn. auto.
  - cbn [property_key]. unfold JsObject.get. rewrite Hown, Hinh.
    rewrite andb_false_r. cbn. auto.
Qed.

(** C6, on the code: [constructor] is not a registered session id, yet
    [transports["constructor"]] is truthy, so the request enters the
    delegation branch, fails there and is answered 500 instead of 404. *)
Theorem messages_inherited_key_500 :
  let out := messages_handler (mkPostRequest (Some "constructor") "{}")
                              three_sessions in
  JsObject.own "constructor" three_sessions = None
  /\ replies (trace out)
     = [mkReply 500 (Text (error_text undefined_transport_error))]
  /\ sent (response out) <> Some no_transport
  /\ registry out = three_sessions.
Proof.
  cbv zeta. repeat split; try reflexivity. discriminate.
Qed.

(* ------------------------------------------------------------------------- *)
(** ** GET /health *)

(** C9: the handler answers 200 with a JSON object of eight fields: the
    status [healthy], the time and the process uptime read from the runtime,
    the version [1.0.0], the environment name, the number of sessions in the
    registry as [activeConnections] (3 for three sessions), the number of
    integrations and the number of tools.  It writes no log, calls nothing
    and leaves the registry as it was. *)
Theorem health_reports_count envs timestamp uptime reg :
  let out := health_handler envs timestamp uptime reg in
  let fields :=
    [ ("status", JString "healthy");
      ("timestamp", JString timestamp);
      ("uptime", JReal uptime);
      ("version", JString "1.0.0");
      ("environment", JString (NODE_ENV envs));
      ("activeConnections", JNumber (count reg));
      ("integrations", JNumber (length (integrations envs)));
      ("tools", JNumber (length (extraTools envs))) ] in
  sent (response out) = Some (mkReply 200 (Json fields))
  /\ registry out = reg
  /\ trace out = [Respond (mkReply 200 (Json fields))]
  /\ completion out = Returned
  /\ In ("activeConnections", JNumber 3)
        (healthStatus envs timestamp uptime three_sessions).
Proof.
  cbv zeta. unfold health_handler, reply_and_return, healthStatus, count.
  cbn. repeat split; auto 10.
Qed.

(* ------------------------------------------------------------------------- *)
(** ** Removal *)

(** C8: the teardown hook never throws; on an id that is not in the registry
    it changes nothing, running it twice leaves what running it once leaves,
    and after the shutdown loop has emptied the registry it finds nothing to
    remove. *)
Theorem on_close_idempotent tr reg :
  completion (on_close tr reg) = Returned
  /\ registry (on_close tr (registry (on_close tr reg)))
     = registry (on_close tr reg)
  /\ (JsObject.own (sessionId tr) reg = None ->
        registry (on_close tr reg) = reg)
  /\ registry (on_close tr (drain reg)) = drain reg
  /\ completion (on_close tr (drain reg)) = Returned.
Proof.
  unfold on_close, drain. cbn [registry completion].
  repeat split.
  - apply delete_idempotent.
  - intros Hnone. apply delete_absent. now apply own_None_iff.
  - rewrite clear_empty. reflexivity.
Qed.

Lemma on_close_idempotent_witness :
  registry (on_close (sound_transport "z") three_sessions) = three_sessions.
Proof.
  apply (proj1 (proj2 (proj2
           (on_close_idempotent (sound_transport "z") three_sessions)))).
  reflexivity.
Defined.

(* ------------------------------------------------------------------------- *)
(** ** handleShutdown *)




Lemma forallb_map_settled (A : Type) (f : A -> Settled) (l : list A) :
  forallb is_fulfilled (map f l) = forallb (fun a => is_fulfilled (f a)) l.
Proof. induction l as [|a l IH]; cbn; [|rewrite IH]; reflexivity. Qed.

Lemma fulfilled_none_else (ps : list Settled) :
  forallb is_fulfilled ps
  = negb (existsb is_rejected ps) && negb (existsb is_pending ps).
Proof.
  induction ps as [|s ps IH]; [reflexivity|].
  destruct s; cbn; rewrite ?IH, ?andb_false_r; reflexivity.
Qed.

Lemma find_rejected (ps : list Settled) :
  match find is_rejected ps with
  | Some r => existsb is_rejected ps = true /\ exists e, r = Rejected e
  | None => existsb is_rejected ps = false
  end.
Proof.
  induction ps as [|s ps IH]; [reflexivity|].
  destruct s; cbn; try exact IH. split; eauto.
Qed.

(** The three ways [Promise.all] ends. *)
Lemma promise_all_cases (ps : list Settled) :
  (promise_all ps = Fulfilled /\ forallb is_fulfilled ps = true)
  \/ (exists e, promise_all ps = Rejected e
                /\ existsb is_rejected ps = true)
  \/ (promise_all ps = Pending
      /\ existsb is_rejected ps = false /\ existsb is_pending ps = true).
Proof.
  rewrite fulfilled_none_else. unfold promise_all.
  pose proof (find_rejected ps) as F.
  destruct (find is_rejected ps) as [r|].
  - destruct F as [F [e ->]]. right. left. eauto.
  - rewrite F. destruct (existsb is_pending ps); auto.
Qed.

Lemma promise_all_fulfilled (A : Type) (f : A -> Settled) (l : list A) :
  forallb (fun a => is_fulfilled (f a)) l = true ->
  promise_all (map f l) = Fulfilled.
Proof.
  rewrite <- forallb_map_settled, fulfilled_none_else. intros H.
  apply andb_true_iff in H as [H1 H2].
  apply negb_true_iff in H1. apply negb_true_iff in H2.
  destruct (promise_all_cases (map f l))
    as [[P _] | [(e & _ & R) | (_ & _ & R)]]; [exact P | |]; congruence.
Qed.

Lemma promise_all_fulfilled_inv (ps : list Settled) :
  promise_all ps = Fulfilled -> forallb is_fulfilled ps = true.
Proof.
  intros P.
  destruct (promise_all_cases ps)
    as [[_ F] | [(e & P' & _) | (P' & _)]]; [exact F | |]; congruence.
Qed.


Lemma exits_closing_only (ps : list TransportPayload) :
  exits (LogClosingAll
           :: map (fun p => TransportClose (sessionId (transport p))) ps)
  = [].
Proof. cbn. induction ps as [|p ps IH]; cbn; auto. Qed.





(* ------------------------------------------------------------------------- *)
(** ** The count of the registry over sequences of operations *)

Lemma connect_ids_snoc ops op :
  connect_ids (ops ++ [op]) = connect_ids ops ++ connect_ids [op].
Proof. unfold connect_ids. apply flat_map_app. Qed.

Lemma sessions_connected_snoc_connect ops tr jwt :
  sessions_connected (ops ++ [Connect tr jwt]) = S (sessions_connected ops).
Proof.
  unfold sessions_connected. rewrite connect_ids_snoc, length_app. cbn. lia.
Qed.

Lemma sessions_connected_snoc_other ops op :
  connect_ids [op] = [] ->
  sessions_connected (ops ++ [op]) = sessions_connected ops.
Proof.
  intros E. unfold sessions_connected.
  now rewrite connect_ids_snoc, E, app_nil_r.
Qed.

Lemma sessions_ended_le ops : sessions_ended ops <= sessions_connected ops.
Proof.
  unfold sessions_connected, connect_ids.
  induction ops as [|[tr jwt|tr|] rest IH]; cbn in *; try lia.
  destruct (existsb _ rest); lia.
Qed.

Lemma live_connected sid ops : live sid ops = true -> In sid (connect_ids ops).
Proof.
  induction ops as [|[tr jwt|tr|] rest IH]; cbn; try discriminate; auto.
  intros H. apply orb_true_iff in H as [H|H]; [left | right; auto].
  apply andb_true_iff in H as [H _]. symmetry. now apply String.eqb_eq.
Qed.

Lemma live_snoc_connect sid ops tr jwt :
  live sid (ops ++ [Connect tr jwt])
  = live sid ops || String.eqb sid (sessionId tr).
Proof.
  induction ops as [|[tr0 jwt0|tr0|] rest IH]; cbn.
  - now rewrite andb_true_r, orb_false_r.
  - rewrite IH, existsb_app. cbn. rewrite orb_false_r. now rewrite orb_assoc.
  - exact IH.
  - exact IH.
Qed.

Lemma live_snoc_disconnect sid ops tr :
  live sid (ops ++ [Disconnect tr])
  = live sid ops && negb (String.eqb sid (sessionId tr)).
Proof.
  induction ops as [|[tr0 jwt0|tr0|] rest IH]; cbn; auto.
  rewrite IH, existsb_app. cbn. rewrite orb_false_r.
  destruct (String.eqb sid (sessionId tr0)), (existsb (ends sid) rest),
           (String.eqb sid (sessionId tr)), (live sid rest); reflexivity.
Qed.

Lemma live_snoc_drain sid ops : live sid (ops ++ [Drain]) = false.
Proof.
  induction ops as [|[tr0 jwt0|tr0|] rest IH]; cbn; auto.
  rewrite IH, existsb_app. cbn. now rewrite orb_true_r, andb_false_r.
Qed.

Lemma sessions_ended_snoc_connect ops tr jwt :
  sessions_ended (ops ++ [Connect tr jwt]) = sessions_ended ops.
Proof.
  induction ops as [|[tr0 jwt0|tr0|] rest IH]; cbn; auto.
  rewrite IH, existsb_app. cbn. now rewrite orb_false_r.
Qed.

Lemma sessions_ended_snoc_drain ops :
  sessions_ended (ops ++ [Drain]) = sessions_connected ops.
Proof.
  unfold sessions_connected, connect_ids.
  induction ops as [|[tr0 jwt0|tr0|] rest IH]; cbn; auto.
  rewrite IH, existsb_app. cbn. now rewrite orb_true_r.
Qed.

Lemma sessions_ended_snoc_disconnect ops tr :
  NoDup (connect_ids ops) ->
  sessions_ended (ops ++ [Disconnect tr])
  = sessions_ended ops + (if live (sessionId tr) ops then 1 else 0).
Proof.
  induction ops as [|[tr0 jwt0|tr0|] rest IH]; cbn; auto.
  intros Hnd. inversion Hnd as [|? ? Hfresh Hnd']; subst.
  rewrite (IH Hnd'), existsb_app. cbn. rewrite orb_false_r.
  destruct (String.eqb_spec (sessionId tr) (sessionId tr0)) as [E|Hne].
  - assert (Hl : live (sessionId tr) rest = false).
    { destruct (live (sessionId tr) rest) eqn:L; [|reflexivity].
      apply live_connected in L. rewrite E in L. contradiction. }
    rewrite Hl, E, String.eqb_refl, orb_true_r.
    destruct (existsb (ends (sessionId tr0)) rest); cbn; lia.
  - assert (Hne' : String.eqb (sessionId tr0) (sessionId tr) = false)
      by (apply String.eqb_neq; congruence).
    rewrite Hne', orb_false_r. cbn. lia.
Qed.

(** The registry holds exactly the live session ids, each once, and their
    number is the difference the specification names. *)
Lemma run_invariant ops :
  NoDup (connect_ids ops) ->
  let reg := run ops transports_init in
  JsObject.wf reg
  /\ (forall sid, In sid (JsObject.keys reg) <-> live sid ops = true)
  /\ count reg + sessions_ended ops = sessions_connected ops.
Proof.
  cbv zeta.
  induction ops as [|op ops IH] using rev_ind; intros Hnd.
  - cbn. repeat split; try constructor; try tauto; try discriminate.
  - rewrite connect_ids_snoc in Hnd.
    destruct (IH (NoDup_app_remove_r _ _ Hnd)) as (Hwf & Hlive & Hcount).
    rewrite run_snoc. set (reg := run ops transports_init) in *.
    destruct op as [tr jwt|tr|]; cbn [step on_close registry].
    + (* Connect *)
      assert (Hfresh : ~ In (sessionId tr) (JsObject.keys reg)).
      { intros HI. apply Hlive, live_connected in HI.
        cbn in Hnd. apply NoDup_remove_2 in Hnd.
        rewrite app_nil_r in Hnd. contradiction. }
      unfold register. split; [now apply wf_set|]. split.
      * intros sid. rewrite In_keys_set, live_snoc_connect, orb_true_iff.
        rewrite Hlive, String.eqb_eq. tauto.
      * unfold count. rewrite keys_set_absent by assumption.
        rewrite length_app, sessions_ended_snoc_connect,
                sessions_connected_snoc_connect.
        unfold count in Hcount. cbn. lia.
    + (* Disconnect *)
      split; [now apply wf_delete|]. split.
      * intros sid.
        rewrite In_keys_delete, live_snoc_disconnect, andb_true_iff,
                negb_true_iff, String.eqb_neq, Hlive. tauto.
      * rewrite sessions_ended_snoc_disconnect
          by exact (NoDup_app_remove_r _ _ Hnd).
        rewrite sessions_connected_snoc_other by reflexivity.
        unfold count in *.
        destruct (live (sessionId tr) ops) eqn:L.
        -- apply Hlive in L.
           pose proof (length_keys_delete_present _ (sessionId tr) reg Hwf L).
           lia.
        -- rewrite delete_absent; [lia|].
           intros HI. apply Hlive in HI. congruence.
    + (* Drain *)
      unfold drain. rewrite clear_empty. split; [constructor|]. split.
      * intros sid. rewrite live_snoc_drain. cbn. split; [tauto|discriminate].
      * rewrite sessions_ended_snoc_drain.
        now rewrite sessions_connected_snoc_other by reflexivity.
Qed.

(** C4: over any sequence of connections (with ids that are not reused),
    disconnections and drains, starting from the empty registry, the count is
    the number of sessions connected minus the number of them that were
    disconnected or drained; that difference is never negative; the count is
    0 right after a drain; and every id occurs once in the registry, bound to
    one transport. *)
Theorem registry_count ops :
  NoDup (connect_ids ops) ->
  let reg := run ops transports_init in
  count reg = sessions_connected ops - sessions_ended ops
  /\ sessions_ended ops <= sessions_connected ops
  /\ count (run (ops ++ [Drain]) transports_init) = 0
  /\ NoDup (JsObject.keys reg)
  /\ (forall sid p q,
        JsObject.own sid reg = Some p -> JsObject.own sid reg = Some q ->
        transport p = transport q).
Proof.
  intros Hnd reg.
  destruct (run_invariant ops Hnd) as (Hwf & _ & Hcount).
  fold reg in Hwf, Hcount.
  split; [lia|]. split; [apply sessions_ended_le|]. split.
  - rewrite run_snoc. cbn [step]. unfold drain. now rewrite clear_empty.
  - split; [exact Hwf|]. intros sid p q Hp Hq. congruence.
Qed.

Lemma registry_count_witness :
  let ops := [ Connect (sound_transport "a") "k1.ann";
               Connect (sound_transport "b") "k1.bob";
               Disconnect (sound_transport "a");
               Connect (sound_transport "c") "k1.cy";
               Disconnect (sound_transport "a") ] in
  count (run ops transports_init) = 3 - 1
  /\ count (run (ops ++ [Drain]) transports_init) = 0
  /\ NoDup (JsObject.keys (run ops transports_init)).
Proof.
  cbv zeta.
  pose proof (registry_count
                [ Connect (sound_transport "a") "k1.ann";
                  Connect (sound_transport "b") "k1.bob";
                  Disconnect (sound_transport "a");
                  Connect (sound_transport "c") "k1.cy";
                  Disconnect (sound_transport "a") ]) as H.
  cbv zeta in H.
  destruct H as (H1 & _ & H3 & H4 & _).
  - cbn. repeat constructor; cbn; intuition discriminate.
  - split; [exact H1 | split; [exact H3 | exact H4]].
Defined.

(* ========================================================================= *)
(** * Further properties of the handlers *)

(* ------------------------------------------------------------------------- *)
(** ** GET /sse: which requests get a session, and with which token *)

Lemma sse_session codec envs req tr connected reg jwt :
  session_jwt codec envs req = Some jwt ->
  sse_handler codec envs req tr connected reg
  = mkOutcome (register tr jwt reg)
      [ TransportCreated (sessionId tr);
        LogConnectedClients (connected_clients codec (register tr jwt reg));
        CloseHookRegistered (sessionId tr);
        ServerConnect (sessionId tr) ]
      fresh_res
      match connected with
      | Fulfilled => Returned
      | Rejected e => Threw e
      | Pending => Suspended
      end.
Proof. intros E. unfold sse_handler. now rewrite E. Qed.



Lemma bearer_header_prefixed t user :
  bearer_header (mkSseRequest (Some (String.append "Bearer " t)) user) = true.
Proof. unfold bearer_header, startsWith. destruct t; reflexivity. Qed.

(** A header [Bearer <t>] binds the session to [t] with its outer white space
    removed, whatever the environment and the [user] parameter are: the
    header is looked at first and [signJwt] is not called. *)
Theorem sse_bearer_token_stored codec envs tr connected reg t user :
  let req := mkSseRequest (Some (String.append "Bearer " t)) user in
  let out := sse_handler codec envs req tr connected reg in
  session_jwt codec envs req = Some (trim t)
  /\ JsObject.own (sessionId tr) (registry out) = Some (mkPayload tr (trim t))
  /\ replies (trace out) = [].
Proof.
  cbv zeta.
  assert (E : session_jwt codec envs
                (mkSseRequest (Some (String.append "Bearer " t)) user)
              = Some (trim t)).
  { unfold session_jwt. rewrite bearer_header_prefixed. reflexivity. }
  split; [exact E|].
  rewrite (sse_session codec envs _ tr connected reg _ E).
  cbn [registry trace replies flat_map app]. split; [|reflexivity].
  unfold register. apply own_set_same.
Qed.

Lemma trimEnd_cons c r :
  trimEnd (String c r)
  = match trimEnd r with
    | EmptyString => if is_space c then EmptyString else String c EmptyString
    | String d r' => String c (String d r')
    end.
Proof. reflexivity. Qed.

Lemma trimStart_cases s :
  trimStart s = EmptyString
  \/ exists c r, trimStart s = String c r /\ is_space c = false.
Proof.
  induction s as [|c s IH]; cbn; [now left|].
  destruct (is_space c) eqn:E; [exact IH|]. right. eauto.
Qed.

Lemma trimEnd_idempotent s : trimEnd (trimEnd s) = trimEnd s.
Proof.
  induction s as [|c s IH]; [reflexivity|].
  rewrite trimEnd_cons. destruct (trimEnd s) as [|d r'] eqn:E.
  - destruct (is_space c) eqn:Ec; [reflexivity|].
    rewrite trimEnd_cons. cbn [trimEnd]. now rewrite Ec.
  - rewrite trimEnd_cons, IH. reflexivity.
Qed.

Lemma trimEnd_keeps_head c r :
  is_space c = false -> exists r', trimEnd (String c r) = String c r'.
Proof.
  intros Hc. rewrite trimEnd_cons. destruct (trimEnd r); rewrite ?Hc; eauto.
Qed.

Lemma trim_fixed s : trimStart (trim s) = trim s /\ trimEnd (trim s) = trim s.
Proof.
  unfold trim. split; [|apply trimEnd_idempotent].
  destruct (trimStart_cases s) as [E | (c & r & E & Hc)]; rewrite E.
  - reflexivity.
  - destruct (trimEnd_keeps_head c r Hc) as [r' E']. rewrite E'.
    cbn. now rewrite Hc.
Qed.

(** The token stored for a Bearer header has no white space left at either
    end: trimming it again changes nothing. *)
Theorem sse_bearer_token_trimmed codec envs req tr connected reg p :
  bearer_header req = true ->
  JsObject.own (sessionId tr)
               (registry (sse_handler codec envs req tr connected reg))
  = Some p ->
  trimStart (currentJwt p) = currentJwt p
  /\ trimEnd (currentJwt p) = currentJwt p
  /\ trim (currentJwt p) = currentJwt p.
Proof.
  intros Hb.
  destruct (sse_bearer_accepted codec envs req tr connected reg Hb) as [E _].
  rewrite E. unfold register. rewrite own_set_same. intros [= <-].
  cbn [currentJwt].
  destruct (trim_fixed (slice 7 (property_key (authorization req))))
    as [H1 H2].
  split; [exact H1|]. split; [exact H2|].
  transitivity
    (trimEnd (trimStart (trim (slice 7 (property_key (authorization req))))));
    [reflexivity|].
  now rewrite H1.
Qed.

Lemma sse_bearer_token_trimmed_witness :
  currentJwt (mkPayload (sound_transport "s1") "k1.ann") = "k1.ann"
  /\ trim "k1.ann" = "k1.ann".
Proof.
  split; [reflexivity|].
  exact (proj2 (proj2
    (sse_bearer_token_trimmed tag_codec production
       (mkSseRequest (Some "Bearer   k1.ann  ") None)
       (sound_transport "s1") Fulfilled three_sessions
       (mkPayload (sound_transport "s1") "k1.ann")
       eq_refl eq_refl))).
Defined.

(** Registering a session touches one key: every other id keeps its entry,
    the keys keep their order, a new id is added last and a reused one is
    overwritten in place, so the count grows by one only for a new id. *)
Theorem sse_connect_frame codec envs req tr connected reg jwt :
  session_jwt codec envs req = Some jwt ->
  let out := sse_handler codec envs req tr connected reg in
  (forall k, k <> sessionId tr ->
             JsObject.own k (registry out) = JsObject.own k reg)
  /\ JsObject.keys (registry out)
     = match JsObject.own (sessionId tr) reg with
       | Some _ => JsObject.keys reg
       | None => JsObject.keys reg ++ [sessionId tr]
       end
  /\ count (registry out)
     = count reg + match JsObject.own (sessionId tr) reg with
                   | Some _ => 0
                   | None => 1
                   end
  /\ (JsObject.wf reg -> JsObject.wf (registry out)).
Proof.
  intros E. cbv zeta.
  rewrite (sse_session codec envs req tr connected reg jwt E).
  cbn [registry]. unfold register, count.
  split; [intros k Hk; now apply own_set_other|].
  destruct (JsObject.own (sessionId tr) reg) as [old|] eqn:Hown.
  - apply own_In_keys in Hown.
    rewrite keys_set_present by assumption.
    split; [reflexivity|]. split; [lia | apply wf_set].
  - apply own_None_iff in Hown.
    rewrite keys_set_absent by assumption.
    rewrite length_app. cbn.
    split; [reflexivity|]. split; [lia | apply wf_set].
Qed.

Lemma sse_connect_frame_witness :
  let out := sse_handler tag_codec development
               (mkSseRequest None (Some "dee")) (sound_transport "b")
               Fulfilled three_sessions in
  JsObject.keys (registry out) = ["a"; "b"; "c"]
  /\ count (registry out) = 3 + 0.
Proof.
  pose proof (sse_connect_frame tag_codec development
                (mkSseRequest None (Some "dee")) (sound_transport "b")
                Fulfilled three_sessions "k1.dee" eq_refl) as H.
  cbv zeta in H. destruct H as (_ & H2 & H3 & _).
  split; [exact H2 | exact H3].
Defined.

Lemma connected_clients_keys codec reg :
  map fst (connected_clients codec reg) = JsObject.keys reg.
Proof.
  unfold connected_clients. rewrite map_map. cbn. apply map_id.
Qed.

(** The "Connected clients:" line written while a session is registered
    names every session id of the registry once, in registry order, and
    shows for the new session the user decoded from its token (nothing when
    the token does not decode). *)
Theorem sse_logs_connected_clients codec envs req tr connected reg jwt :
  session_jwt codec envs req = Some jwt ->
  let out := sse_handler codec envs req tr connected reg in
  exists clients,
    In (LogConnectedClients clients) (trace out)
    /\ map fst clients = JsObject.keys (registry out)
    /\ In (sessionId tr, jwt_decode_sub codec jwt) clients
    /\ (forall k p, JsObject.own k (registry out) = Some p ->
                    In (k, jwt_decode_sub codec (currentJwt p)) clients).
Proof.
  intros E. cbv zeta.
  rewrite (sse_session codec envs req tr connected reg jwt E).
  cbn [registry trace].
  exists (connected_clients codec (register tr jwt reg)).
  split; [right; now left|]. split; [apply connected_clients_keys|].
  assert (G : forall k p, JsObject.own k (register tr jwt reg) = Some p ->
                In (k, jwt_decode_sub codec (currentJwt p))
                   (connected_clients codec (register tr jwt reg))).
  { intros k p Hown. unfold connected_clients. apply in_map_iff.
    exists k. split.
    - now rewrite (get_own _ k p Hown).
    - now apply own_In_keys in Hown. }
  split; [|exact G].
  apply (G (sessionId tr) (mkPayload tr jwt)).
  unfold register. apply own_set_same.
Qed.

Lemma sse_logs_connected_clients_witness :
  let out := sse_handler tag_codec production
               (mkSseRequest (Some "Bearer not-a-token") None)
               (sound_transport "d") Fulfilled three_sessions in
  exists clients,
    In (LogConnectedClients clients) (trace out)
    /\ map fst clients = ["a"; "b"; "c"; "d"]
    /\ In ("d", None) clients.
Proof.
  destruct (sse_logs_connected_clients tag_codec production
              (mkSseRequest (Some "Bearer not-a-token") None)
              (sound_transport "d") Fulfilled three_sessions
              "not-a-token" eq_refl)
    as (clients & H1 & H2 & H3 & _).
  exists clients. split; [exact H1 | split; [exact H2 | exact H3]].
Defined.

(* ------------------------------------------------------------------------- *)
(** ** Disconnection *)

(** The teardown hook removes the entry of its own session id and nothing
    else: other ids keep their entries and their order, and the count drops
    by one when the id was registered. *)
Theorem on_close_frame tr reg :
  let out := on_close tr reg in
  JsObject.own (sessionId tr) (registry out) = None
  /\ (forall k, k <> sessionId tr ->
                JsObject.own k (registry out) = JsObject.own k reg)
  /\ JsObject.keys (registry out)
     = filter (fun k => negb (String.eqb (sessionId tr) k)) (JsObject.keys reg)
  /\ (JsObject.wf reg -> In (sessionId tr) (JsObject.keys reg) ->
      S (count (registry out)) = count reg).
Proof.
  cbv zeta. unfold on_close, count. cbn [registry].
  split; [apply own_delete_same|].
  split; [intros k Hk; now apply own_delete_other|].
  split; [apply keys_delete|].
  intros Hwf HI. now apply length_keys_delete_present.
Qed.

Lemma on_close_frame_witness :
  S (count (registry (on_close (sound_transport "b") three_sessions)))
  = count three_sessions.
Proof.
  apply (proj2 (proj2 (proj2
           (on_close_frame (sound_transport "b") three_sessions)))).
  - repeat constructor; cbn; intuition discriminate.
  - right; now left.
Defined.

(** The hook deletes by session id, not by connection: when a later
    connection was registered under the same id, the disconnection of the
    earlier one removes the later one's entry. *)
Theorem stale_hook_removes_later_session tr1 jwt1 tr2 jwt2 reg :
  sessionId tr1 = sessionId tr2 ->
  let reg2 := register tr2 jwt2 (register tr1 jwt1 reg) in
  JsObject.own (sessionId tr2) reg2 = Some (mkPayload tr2 jwt2)
  /\ JsObject.own (sessionId tr2) (registry (on_close tr1 reg2)) = None.
Proof.
  intros E. cbv zeta. split.
  - unfold register at 1. apply own_set_same.
  - unfold on_close. cbn [registry]. rewrite E. apply own_delete_same.
Qed.

Lemma stale_hook_removes_later_session_witness :
  let reg2 := register (late_failing_transport "a") "k1.amy"
                (register (sound_transport "a") "k1.ann" transports_init) in
  JsObject.own "a" reg2 = Some (mkPayload (late_failing_transport "a") "k1.amy")
  /\ JsObject.own "a" (registry (on_close (sound_transport "a") reg2)) = None.
Proof.
  exact (stale_hook_removes_later_session
           (sound_transport "a") "k1.ann" (late_failing_transport "a") "k1.amy"
           transports_init eq_refl).
Defined.

(* ------------------------------------------------------------------------- *)
(** ** POST /messages: what the handler does and never does *)

Ltac messages_cases :=
  unfold messages_handler, catch_block, not_found_tail, reply_and_return,
         after_transport;
  repeat match goal with
         | |- context [if ?b then _ else _] => destruct b
         | |- context [match ?x with _ => _ end] => destruct x
         end.

(** A request reads the registry and never writes it; it reaches at most one
    transport, the handler itself attempts at most one reply, which is a 404
    or a 500, and it never closes a transport or ends the process. *)
Theorem messages_handler_bounds req reg :
  let out := messages_handler req reg in
  registry out = reg
  /\ length (delegations (trace out)) <= 1
  /\ length (replies (trace out)) <= 1
  /\ (forall r, In r (replies (trace out)) -> status r = 404 \/ status r = 500)
  /\ close_calls (trace out) = []
  /\ exits (trace out) = [].
Proof.
  cbv zeta. messages_cases; cbn;
    (repeat split; auto;
     let x := fresh "x" in
     let Hx := fresh "Hx" in
     intros x Hx; repeat (destruct Hx as [<-|Hx]; [cbn; auto|]);
     contradiction).
Qed.

(** When the transport of a registered session deals with the message and
    its promise is fulfilled, the handler adds nothing: the response is what
    the transport wrote.  While that promise is pending the handler stays
    suspended and sends nothing either. *)
Theorem messages_transport_handles req reg sid p :
  query_sessionId req = Some sid ->
  sid <> "" ->
  JsObject.own sid reg = Some p ->
  (forall e, settled (handlePostMessage (transport p) req) <> Rejected e) ->
  let out := messages_handler req reg in
  replies (trace out) = []
  /\ response out
     = after_transport fresh_res (written (handlePostMessage (transport p) req))
  /\ completion out
     = match settled (handlePostMessage (transport p) req) with
       | Pending => Suspended
       | _ => Returned
       end.
Proof.
  intros Hq Hne Hown Hset. cbv zeta.
  unfold messages_handler. rewrite Hq. cbn [property_key truthy_string].
  rewrite (get_own reg sid p Hown).
  destruct (String.eqb_spec sid ""); [contradiction|].
  cbn [negb andb JsObject.truthy].
  destruct (settled (handlePostMessage (transport p) req)) eqn:E;
    cbn; auto.
  now contradiction (Hset reason).
Qed.

Lemma messages_transport_handles_witness :
  let out := messages_handler (mkPostRequest (Some "c") "{}") three_sessions in
  replies (trace out) = []
  /\ response out = mkRes true (Some accepted)
  /\ completion out = Returned.
Proof.
  apply (messages_transport_handles (mkPostRequest (Some "c") "{}")
           three_sessions "c" (mkPayload (sound_transport "c") "k1.cy"));
    [reflexivity | discriminate | reflexivity | intros e; discriminate].
Defined.

(** Every property name of [Object.prototype] that is not a registered id is
    taken for a session: the request is not delegated, and is answered 500
    with the text of the TypeError instead of 404. *)
Theorem messages_inherited_key req reg sid :
  query_sessionId req = Some sid ->
  JsObject.inherited sid = true ->
  JsObject.own sid reg = None ->
  let out := messages_handler req reg in
  replies (trace out)
  = [mkReply 500 (Text (error_text undefined_transport_error))]
  /\ delegations (trace out) = []
  /\ completion out = Returned.
Proof.
  intros Hq Hinh Hown. cbv zeta.
  assert (Hne : String.eqb sid "" = false).
  { destruct (String.eqb_spec sid "") as [->|]; [discriminate Hinh|reflexivity]. }
  unfold messages_handler. rewrite Hq. cbn [property_key truthy_string].
  unfold JsObject.get. rewrite Hown, Hinh, Hne. cbn. auto.
Qed.

Lemma messages_inherited_key_witness :
  let out := messages_handler (mkPostRequest (Some "__proto__") "{}")
                              three_sessions in
  replies (trace out)
  = [mkReply 500 (Text (error_text undefined_transport_error))]
  /\ delegations (trace out) = []
  /\ completion out = Returned.
Proof.
  apply (messages_inherited_key (mkPostRequest (Some "__proto__") "{}")
           three_sessions "__proto__");
    reflexivity.
Defined.

(* ------------------------------------------------------------------------- *)
(** ** A session from connection to disconnection *)

(** Once a request has been given a session, a message for the transport's
    id is delegated to that session; after the session's teardown hook has
    run the same message is answered 404, while every other session that was
    registered stays registered. *)
Theorem connect_route_disconnect
    codec envs req tr connected reg jwt post :
  session_jwt codec envs req = Some jwt ->
  sessionId tr <> "" ->
  JsObject.inherited (sessionId tr) = false ->
  query_sessionId post = Some (sessionId tr) ->
  let reg1 := registry (sse_handler codec envs req tr connected reg) in
  let reg2 := registry (on_close tr reg1) in
  delegations (trace (messages_handler post reg1)) = [sessionId tr]
  /\ replies (trace (messages_handler post reg2)) = [no_transport]
  /\ delegations (trace (messages_handler post reg2)) = []
  /\ (forall k, k <> sessionId tr ->
                JsObject.own k reg2 = JsObject.own k reg).
Proof.
  intros E Hne Hinh Hq. cbv zeta.
  rewrite (sse_session codec envs req tr connected reg jwt E).
  cbn [registry on_close].
  assert (H1 : JsObject.own (sessionId tr) (register tr jwt reg)
               = Some (mkPayload tr jwt))
    by (unfold register; apply own_set_same).
  split.
  - unfold messages_handler. rewrite Hq. cbn [property_key truthy_string].
    rewrite (get_own _ _ _ H1).
    destruct (String.eqb_spec (sessionId tr) ""); [contradiction|].
    cbn [negb andb JsObject.truthy transport].
    destruct (settled (handlePostMessage tr post)); cbn; try reflexivity.
    unfold catch_block, not_found_tail, reply_and_return.
    destruct (written (handlePostMessage tr post)); cbn; reflexivity.
  - destruct (messages_unknown_session post
                (JsObject.delete (sessionId tr) (register tr jwt reg)))
      as (R1 & _ & R3 & _).
    { right. exists (sessionId tr).
      split; [exact Hq|]. split; [apply own_delete_same | exact Hinh]. }
    split; [exact R1|]. split; [exact R3|].
    intros k Hk. rewrite own_delete_other by assumption.
    unfold register. now apply own_set_other.
Qed.

Lemma connect_route_disconnect_witness :
  let tr := sound_transport "d" in
  let post := mkPostRequest (Some "d") "{}" in
  let reg1 := registry (sse_handler tag_codec production
                          (mkSseRequest (Some "Bearer k1.dee") None)
                          tr Fulfilled three_sessions) in
  let reg2 := registry (on_close tr reg1) in
  delegations (trace (messages_handler post reg1)) = ["d"]
  /\ replies (trace (messages_handler post reg2)) = [no_transport]
  /\ delegations (trace (messages_handler post reg2)) = []
  /\ (forall k, k <> "d" ->
                JsObject.own k reg2 = JsObject.own k three_sessions).
Proof.
  apply (connect_route_disconnect tag_codec production
           (mkSseRequest (Some "Bearer k1.dee") None)
           (sound_transport "d") Fulfilled three_sessions "k1.dee"
           (mkPostRequest (Some "d") "{}"));
    [reflexivity | discriminate | reflexivity | reflexivity].
Defined.

(* ------------------------------------------------------------------------- *)
(** ** handleShutdown: how far it gets *)

(** The closes all come first.  [server.close()] is called exactly when
    every transport's [close] was fulfilled, and always after the last of
    them; [process.exit(0)] can only follow it. *)
Theorem shutdown_trace_shape server_closed reg :
  let out := handleShutdown server_closed reg in
  let all_closed :=
    forallb (fun p => is_fulfilled (close (transport p)))
            (JsObject.values reg) in
  exists tail,
    trace out
    = LogClosingAll
        :: map (fun p => TransportClose (sessionId (transport p)))
               (JsObject.values reg)
        ++ tail
    /\ (tail = [] \/ tail = [ServerClose]
        \/ tail = [ServerClose; ProcessExit 0])
    /\ (tail <> [] <-> all_closed = true)
    /\ (tail = [ServerClose; ProcessExit 0]
        <-> all_closed = true /\ server_closed = Fulfilled).
Proof.
  cbv zeta. unfold handleShutdown.
  destruct (promise_all _) as [|e|] eqn:P.
  - apply promise_all_fulfilled_inv in P. rewrite forallb_map_settled in P.
    rewrite P.
    destruct server_closed as [|e|]; cbn [trace];
      [exists [ServerClose; ProcessExit 0] | exists [ServerClose]
       | exists [ServerClose]];
      (split; [reflexivity|]); (split; [auto|]);
      (split; [split; [reflexivity | discriminate]|]);
      split; try discriminate; try tauto;
      intros [_ H]; discriminate H.
  - assert (N : forallb (fun p => is_fulfilled (close (transport p)))
                        (JsObject.values reg) = false).
    { destruct (forallb _ _) eqn:A; [|reflexivity].
      rewrite (promise_all_fulfilled _ _ _ A) in P. discriminate P. }
    rewrite N. exists []. cbn [trace]. rewrite app_nil_r.
    split; [reflexivity|]. split; [auto|].
    split; split; try discriminate; try tauto.
    intros [H _]; discriminate H.
  - assert (N : forallb (fun p => is_fulfilled (close (transport p)))
                        (JsObject.values reg) = false).
    { destruct (forallb _ _) eqn:A; [|reflexivity].
      rewrite (promise_all_fulfilled _ _ _ A) in P. discriminate P. }
    rewrite N. exists []. cbn [trace]. rewrite app_nil_r.
    split; [reflexivity|]. split; [auto|].
    split; split; try discriminate; try tauto.
    intros [H _]; discriminate H.
Qed.

(* ------------------------------------------------------------------------- *)
(** ** GET /setup *)

(** The page is served exactly when the [token] parameter is a non-empty
    string, the store has a non-empty token for it, that token verifies and
    decodes to an object whose [payload] claim is defined; the page then
    carries the SDK url and the defined fields of that claim. *)
Theorem setup_served_iff codec getAccessTokenById decode cdn q page :
  setup_handler codec getAccessTokenById decode cdn q = SetupServed page
  <-> exists tokenId token payload,
        q = QString tokenId /\ tokenId <> ""
        /\ getAccessTokenById tokenId = Some token /\ token <> ""
        /\ jwt_verify codec token = true
        /\ decode token = DecodedObject (ClaimValue payload)
        /\ page = mkSetupPage cdn (tokenInfo payload).
Proof.
  unfold setup_handler. split.
  - destruct q as [|tokenId|]; try discriminate.
    destruct (String.eqb_spec tokenId ""); [discriminate|].
    destruct (getAccessTokenById tokenId) as [token|] eqn:S; [|discriminate].
    destruct (String.eqb_spec token ""); [discriminate|].
    destruct (jwt_verify codec token) eqn:Vf; [|discriminate]. cbn [negb].
    destruct (decode token) as [|s|[| |payload]] eqn:D; try discriminate.
    intros [= <-]. exists tokenId, token, payload. repeat split; auto.
  - intros (tokenId & token & payload & -> & Hid & S & Htok & Vf & D & ->).
    destruct (String.eqb_spec tokenId ""); [contradiction|].
    rewrite S. destruct (String.eqb_spec token ""); [contradiction|].
    rewrite Vf, D. reflexivity.
Qed.

(** Every refusal is the same reply, 400 with [Invalid token]: a missing or
    malformed parameter, an unknown id, a token that does not verify and one
    that does not decode cannot be told apart by the caller.  A token that
    does not verify is never served and never reaches the decoder's result. *)
Theorem setup_refusals_uniform codec getAccessTokenById decode cdn q :
  (forall r, setup_handler codec getAccessTokenById decode cdn q
             = SetupRejected r -> r = invalid_token)
  /\ ((forall tokenId token,
         q = QString tokenId -> getAccessTokenById tokenId = Some token ->
         jwt_verify codec token = false) ->
      setup_handler codec getAccessTokenById decode cdn q
      = SetupRejected invalid_token).
Proof.
  unfold setup_handler. split.
  - intros r.
    destruct q as [|tokenId|]; try (intros [= <-]; reflexivity).
    destruct (String.eqb tokenId ""); [intros [= <-]; reflexivity|].
    destruct (getAccessTokenById tokenId) as [token|];
      [|intros [= <-]; reflexivity].
    destruct (String.eqb token ""); [intros [= <-]; reflexivity|].
    destruct (negb (jwt_verify codec token)); [intros [= <-]; reflexivity|].
    destruct (decode token) as [|s|[| |payload]];
      try discriminate; intros [= <-]; reflexivity.
  - intros Hbad.
    destruct q as [|tokenId|]; try reflexivity.
    destruct (String.eqb tokenId ""); [reflexivity|].
    destruct (getAccessTokenById tokenId) as [token|] eqn:S; [|reflexivity].
    destruct (String.eqb token ""); [reflexivity|].
    now rewrite (Hbad tokenId token eq_refl S).
Qed.

Lemma setup_refusals_uniform_witness :
  setup_handler tag_codec one_token_store tag_decode "https://cdn/sdk.js"
                (QString "t-2")
  = SetupRejected invalid_token.
Proof.
  apply (proj2 (setup_refusals_uniform tag_codec one_token_store tag_decode
                  "https://cdn/sdk.js" (QString "t-2"))).
  intros tokenId token [= <-]. cbn. intros [= <-]. reflexivity.
Defined.

(** The handler throws, without replying, exactly when a token passes every
    check but its decoded payload has no [payload] claim to read from: the
    fields are read off [undefined] or off [null], and the TypeError says
    which. *)
Theorem setup_throws_iff codec getAccessTokenById decode cdn q e :
  setup_handler codec getAccessTokenById decode cdn q = SetupThrew e
  <-> exists tokenId token,
        q = QString tokenId /\ tokenId <> ""
        /\ getAccessTokenById tokenId = Some token /\ token <> ""
        /\ jwt_verify codec token = true
        /\ ((decode token = DecodedObject ClaimUndefined
             /\ e = undefined_payload_error)
            \/ (decode token = DecodedObject ClaimNull
                /\ e = null_payload_error)).
Proof.
  unfold setup_handler. split.
  - destruct q as [|tokenId|]; try discriminate.
    destruct (String.eqb_spec tokenId ""); [discriminate|].
    destruct (getAccessTokenById tokenId) as [token|] eqn:S; [|discriminate].
    destruct (String.eqb_spec token ""); [discriminate|].
    destruct (jwt_verify codec token) eqn:Vf; [|discriminate]. cbn [negb].
    destruct (decode token) as [|s|[| |payload]] eqn:D; try discriminate;
      intros [= <-]; exists tokenId, token; repeat split; auto.
  - intros (tokenId & token & -> & Hid & S & Htok & Vf & D).
    destruct (String.eqb_spec tokenId ""); [contradiction|].
    rewrite S. destruct (String.eqb_spec token ""); [contradiction|].
    rewrite Vf. cbn [negb].
    destruct D as [[-> ->] | [-> ->]]; reflexivity.
Qed.

Example setup_examples :
  setup_handler tag_codec one_token_store tag_decode "https://cdn/sdk.js"
                (QString "t-1")
  = SetupServed (mkSetupPage "https://cdn/sdk.js"
                   [ ("projectId", JString "proj");
                     ("integrationName", JString "slack") ])
  /\ setup_handler tag_codec one_token_store tag_decode "https://cdn/sdk.js"
                   (QString "t-3")
     = SetupThrew undefined_payload_error
  /\ setup_handler tag_codec one_token_store tag_decode "https://cdn/sdk.js"
                   QOther
     = SetupRejected invalid_token.
Proof. repeat split. Qed.

(* ------------------------------------------------------------------------- *)
(** ** What the registry holds after any sequence of operations *)

(** Whatever is connected, disconnected and drained, also with session ids
    that are used again, the registry holds exactly the ids that are live,
    each of them once, and each entry is the payload of a transport with
    that very id. *)
Theorem registry_holds_live_sessions ops :
  let reg := run ops transports_init in
  NoDup (JsObject.keys reg)
  /\ (forall sid, In sid (JsObject.keys reg) <-> live sid ops = true)
  /\ (forall sid p, JsObject.own sid reg = Some p ->
                    sessionId (transport p) = sid).
Proof.
  cbv zeta. split; [|split; [|apply run_keyed]].
  - induction ops as [|op ops IH] using rev_ind; [constructor|].
    rewrite run_snoc.
    destruct op as [tr jwt|tr|]; cbn [step on_close registry].
    + now apply wf_set.
    + now apply wf_delete.
    + unfold drain. rewrite clear_empty. constructor.
  - induction ops as [|op ops IH] using rev_ind; intros sid.
    + cbn. split; [tauto | discriminate].
    + rewrite run_snoc.
      destruct op as [tr jwt|tr|]; cbn [step on_close registry].
      * unfold register.
        rewrite In_keys_set, live_snoc_connect, orb_true_iff, IH,
                String.eqb_eq.
        tauto.
      * rewrite In_keys_delete, live_snoc_disconnect, andb_true_iff,
                negb_true_iff, String.eqb_neq, IH.
        tauto.
      * unfold drain. rewrite clear_empty, live_snoc_drain.
        cbn. split; [tauto | discriminate].
Qed.
